(** * run-tests.py: the README example extractor of elm-hour

    The script reads [README.md], keeps the text after the heading
    [## Examples], wraps it in a fixed Elm module template, writes the
    module to [src/Examples.elm] and runs [elm-doc-test] and [elm-test]
    through the shell.

    The model follows the script line by line:
    - text is a [string], a sequence of 8-bit characters (the UTF-8 bytes
      of the text Python holds); [str.partition] and the f-string are
      functions on it;
    - the file system is a record of finite sets and maps; a file holds
      the text that [read_text] returns, and decoding is not modelled;
    - the shell and the two tools are a parameter [sh] of the script: the
      status of a command line, and what it does to the files;
    - the script is a computation in a state-and-exception monad over a
      world made of the file system and a trace of writes and processes.

    Besides the script the file defines the vocabulary of the properties:
    the offsets of the marker in a text, and the comments of an Elm
    module, which give the documentation-comment block of the generated
    module and what it means for it to be well formed. *)

From Stdlib Require Import ZArith Lia Ascii String List.
From stdpp Require Import base decidable option list gmap sets strings.

Local Open Scope stdpp_scope.

#[local] Arguments String.append : simpl nomatch.

(** ** Strings *)

Module Str.

(** [s[n:]] of Python. *)
Fixpoint skip (n : nat) (s : string) : string :=
  match n, s with
  | O, _ => s
  | S _, EmptyString => EmptyString
  | S k, String _ t => skip k t
  end.

(** [s[:n]] of Python. *)
Fixpoint keep (n : nat) (s : string) : string :=
  match n, s with
  | O, _ => EmptyString
  | S _, EmptyString => EmptyString
  | S k, String c t => String c (keep k t)
  end.

(** [strip_prefix p s] is [Some r] exactly when [s = p +:+ r]. *)
Fixpoint strip_prefix (p s : string) : option string :=
  match p, s with
  | EmptyString, _ => Some s
  | String _ _, EmptyString => None
  | String a p', String b s' =>
      if Ascii.eqb a b then strip_prefix p' s' else None
  end.

(** The offsets at which [p] occurs in [s], in increasing order. *)
Fixpoint occurrences_from (i : nat) (p s : string) : list nat :=
  let here := if strip_prefix p s is Some _ then [i] else [] in
  match s with
  | EmptyString => here
  | String _ t => here ++ occurrences_from (S i) p t
  end.

Definition occurrences (p s : string) : list nat := occurrences_from 0 p s.

(** Split at the first occurrence of [sep]: the parts before and after. *)
Fixpoint find (sep s : string) : option (string * string) :=
  match strip_prefix sep s with
  | Some rest => Some (EmptyString, rest)
  | None =>
      match s with
      | EmptyString => None
      | String c t =>
          match find sep t with
          | Some (before, after) => Some (String c before, after)
          | None => None
          end
      end
  end.

End Str.

(** ** Exceptions and results *)

Inductive exn : Type :=
  | ValueError
  | FileNotFoundError
  | NotADirectoryError
  | IsADirectoryError
  | PermissionError.

(** The subclasses of [OSError]: the file access errors. *)
Definition is_OSError (e : exn) : bool :=
  match e with
  | ValueError => false
  | _ => true
  end.

Inductive result (A : Type) : Type :=
  | Ok (a : A)
  | Raise (e : exn).
Arguments Ok {A} a.
Arguments Raise {A} e.

(** ** [str.partition] *)

(** [s.partition(sep)]: the text before the first occurrence of [sep],
    [sep] itself and the text after it; [(s, '', '')] when [sep] does not
    occur; [ValueError] on an empty separator. *)
Definition partition (s sep : string) : result (string * string * string) :=
  match sep with
  | EmptyString => Raise ValueError
  | String _ _ =>
      match Str.find sep s with
      | Some (before, after) => Ok (before, sep, after)
      | None => Ok (s, EmptyString, EmptyString)
      end
  end.

(** ** The pure part of the script *)

Definition marker : string := "## Examples".

(** [examples = src.partition("## Examples")[-1]] *)
Definition examples_r (src : string) : result string :=
  match partition src marker with
  | Ok (_, _, after) => Ok after
  | Raise e => Raise e
  end.

Definition examples (src : string) : string :=
  match examples_r src with
  | Ok after => after
  | Raise _ => EmptyString
  end.

(** The f-string of the script: one substitution in a fixed text. *)
Definition elm_src (examples : string) : string :=
"
module Examples exposing (..)

{-| AUTO GENERATED -- DO NOT EDIT -}

{-|
" +:+ examples +:+ "
-}
test : Maybe Never
test =
    Nothing
".

(** The module text the script builds from the text of the README. *)
Definition generated (src : string) : string := elm_src (examples src).

(** ** Elm comments

    The generated text is read by [elm-doc-test] as an Elm module. Elm's
    block comments open with [{-], close with [-}] and nest; a line
    comment runs from [--] to the end of the line. [scan] splits a module
    text into the code outside comments and the bodies of its top-level
    block comments (the text between the outer delimiters), in order. *)

Inductive mode : Type :=
  | Code
  | Line
  | Block (depth : nat).

Definition lexed : Type := string * list string.

Definition add_code (c : ascii) (r : lexed) : lexed :=
  (String c r.1, r.2).

Definition add_body (s : string) (r : lexed) : lexed :=
  match r.2 with
  | [] => (r.1, [s])
  | b :: bs => (r.1, (s +:+ b) :: bs)
  end.

Definition new_body (r : lexed) : lexed := (r.1, EmptyString :: r.2).

Definition newline : ascii := "010"%char.

Definition nl : string := String newline EmptyString.

(** In [Block d] the comment being read has [d] comments open inside it,
    and the first body of the result is the rest of the body being read.
    The result is [None] when a block comment is still open at the end. *)
Fixpoint scan (m : mode) (s : string) : option lexed :=
  match s with
  | EmptyString =>
      match m with
      | Block _ => None
      | _ => Some (EmptyString, [])
      end
  | String c t =>
      match m with
      | Code =>
          let plain := add_code c <$> scan Code t in
          if Ascii.eqb c "{" then
            match t with
            | String c' t' => if Ascii.eqb c' "-" then scan (Block 0) t' else plain
            | EmptyString => plain
            end
          else if Ascii.eqb c "-" then
            match t with
            | String c' t' => if Ascii.eqb c' "-" then scan Line t' else plain
            | EmptyString => plain
            end
          else plain
      | Line =>
          if Ascii.eqb c newline then add_code c <$> scan Code t else scan Line t
      | Block d =>
          let plain := add_body (String c EmptyString) <$> scan (Block d) t in
          if Ascii.eqb c "{" then
            match t with
            | String c' t' =>
                if Ascii.eqb c' "-" then add_body "{-" <$> scan (Block (S d)) t'
                else plain
            | EmptyString => plain
            end
          else if Ascii.eqb c "-" then
            match t with
            | String c' t' =>
                if Ascii.eqb c' "}" then
                  match d with
                  | O => new_body <$> scan Code t'
                  | S d' => add_body "-}" <$> scan (Block d') t'
                  end
                else plain
            | EmptyString => plain
            end
          else plain
      end
  end.

(** The documentation-comment block of a module text: the text between the
    [{-|] and the matching [-}] of its second block comment. *)
Definition doc_block (module : string) : option string :=
  r ← scan Code module;
  body ← r.2 !! 1;
  Str.strip_prefix "|" body.

(** The code of the template: its module line and its placeholder
    declaration, as they stand once the two comments are taken out. *)
Definition template_code : string :=
"
module Examples exposing (..)




test : Maybe Never
test =
    Nothing
".

(** The template around its documentation comment: the text up to its
    second [{-|], and the text from its last [-}]. *)
Definition template_open : string :=
"
module Examples exposing (..)

{-| AUTO GENERATED -- DO NOT EDIT -}

{-|".

Definition template_close : string :=
"-}
test : Maybe Never
test =
    Nothing
".

(** A module text is well formed for the documentation-test tool when all
    its comments are closed and the code outside them is the template's. *)
Definition well_formed (module : string) : bool :=
  match scan Code module with
  | Some r => String.eqb r.1 template_code
  | None => false
  end.

(** The nesting depth after reading [s] inside a block comment that has
    [d] comments open inside it; [None] when [s] closes that comment. *)
Fixpoint nesting (d : nat) (s : string) : option nat :=
  match s with
  | EmptyString => Some d
  | String c t =>
      if Ascii.eqb c "{" then
        match t with
        | String c' t' => if Ascii.eqb c' "-" then nesting (S d) t' else nesting d t
        | EmptyString => Some d
        end
      else if Ascii.eqb c "-" then
        match t with
        | String c' t' =>
            if Ascii.eqb c' "}" then
              match d with
              | O => None
              | S d' => nesting d' t'
              end
            else nesting d t
        | EmptyString => Some d
        end
      else nesting d t
  end.

(** Every [-}] of [s] closes a [{-] of [s], and every [{-] of [s] is closed
    in [s]; so it is, in particular, when [s] holds no comment delimiter. *)
Definition balanced (s : string) : bool :=
  bool_decide (nesting 0 s = Some 0).

(** ** Paths and the file system *)

(** A path is the list of its components below the root. *)
Abbreviation Path := (list string).

(** [p / c] of pathlib. *)
Definition div (p : Path) (c : string) : Path := p ++ [c].
Notation "p // c" := (div p c) (at level 40, left associativity).

(** [p.parent] of pathlib. *)
Definition parent (p : Path) : Path := removelast p.

(** [str(p)] of pathlib. *)
Definition str (p : Path) : string :=
  match p with
  | [] => "/"
  | _ => foldr (λ c acc, "/" +:+ c +:+ acc) EmptyString p
  end.

(** The directories, the regular files with their text, and the paths the
    process is denied access to. *)
Record FS : Type := mkFS {
  dirs : gset Path;
  files : gmap Path string;
  locked : gset Path
}.

(** What the script does to its environment, in order. *)
Inductive event : Type :=
  | Wrote (p : Path) (data : string)
  | Spawned (cmd : string) (status : Z).

Record World : Type := mkWorld {
  fs : FS;
  trace : list event
}.

(** ** The monad of the script: state and exceptions *)

Definition M (A : Type) : Type := World → result A * World.

#[export] Instance M_ret : MRet M := λ A a w, (Ok a, w).

#[export] Instance M_bind : MBind M := λ A B k c w,
  match c w with
  | (Ok a, w') => k a w'
  | (Raise e, w') => (Raise e, w')
  end.

Definition lift {A : Type} (r : result A) : M A := λ w, (r, w).

(** [open(p)] for reading, then [read]. *)
Definition fs_read (p : Path) (f : FS) : result string :=
  if decide (p ∈ dirs f) then Raise IsADirectoryError
  else match files f !! p with
       | None => Raise FileNotFoundError
       | Some text =>
           if decide (p ∈ locked f) then Raise PermissionError else Ok text
       end.

(** [open(p, 'w')], then [write]: the file is created or truncated. *)
Definition fs_write (p : Path) (data : string) (f : FS) : result FS :=
  if decide (parent p ∈ dirs f) then
    if decide (p ∈ dirs f) then Raise IsADirectoryError
    else if decide (p ∈ locked f) then Raise PermissionError
    else Ok (mkFS (dirs f) (<[p := data]> (files f)) (locked f))
  else if decide (parent p ∈ dom (files f)) then Raise NotADirectoryError
  else Raise FileNotFoundError.

(** [Path.read_text] *)
Definition read_text (p : Path) : M string := λ w, (fs_read p (fs w), w).

(** [Path.write_text]: returns the number of characters written. *)
Definition write_text (p : Path) (data : string) : M nat := λ w,
  match fs_write p data (fs w) with
  | Ok f' => (Ok (String.length data), mkWorld f' (trace w ++ [Wrote p data]))
  | Raise e => (Raise e, w)
  end.

(** The status an interpreter ends with: 0 at the end of the script, 1 on
    an exception nobody caught. *)
Definition exit_status {A : Type} (r : result A) : Z :=
  match r with
  | Ok _ => 0
  | Raise _ => 1
  end.

(** ** The script *)

Section Script.

(** [BASE = Path(__file__).parent] *)
Variable BASE : Path.

(** The shell and the tools it runs: the status of a command line and what
    it does to the files. *)
Variable sh : string → FS → Z * FS.

(** [os.system]: runs the command line in a shell and returns its status. *)
Definition system (cmd : string) : M Z := λ w,
  let r := sh cmd (fs w) in
  (Ok r.1, mkWorld r.2 (trace w ++ [Spawned cmd r.1])).

Definition readme : Path := BASE // "README.md".

Definition output : Path := BASE // "src" // "Examples.elm".

Definition command : string :=
  "cd " +:+ str BASE +:+ " && elm-doc-test && elm-test".

(** The script up to the write: read, split, fill the template, write. *)
Definition generate : M nat :=
  src ← read_text readme;
  '(_, _, examples) ← lift (partition src "## Examples");
  write_text output (elm_src examples).

(** The whole script; the value of [system] is dropped. *)
Definition script : M unit :=
  _ ← generate;
  _ ← system command;
  mret tt.

End Script.

(** The events of a trace that are writes, and those that are processes. *)
Definition writes (t : list event) : list (Path * string) :=
  omap (λ e, match e with Wrote p d => Some (p, d) | _ => None end) t.

Definition spawned (t : list event) : list string :=
  omap (λ e, match e with Spawned c _ => Some c | _ => None end) t.

(** The file can be opened for writing. *)
Definition writable (p : Path) (f : FS) : bool :=
  bool_decide (parent p ∈ dirs f ∧ ¬ (p ∈ dirs f) ∧ ¬ (p ∈ locked f)).

(** ** Sample texts and worlds *)

Definition scenario_readme : string := "intro text
## Examples
foo bar
".

Definition project : Path := ["elm-hour"].

Definition hour_readme : string := "# Hour
## Examples
    Hour.fromMinutes 90 --> { hours = 1, minutes = 30 }
".

(** The project with its README and its [src] directory. *)
Definition fs_ready : FS :=
  mkFS {[ project; project // "src" ]} {[ readme project := hour_readme ]} ∅.

(** The project without its [src] directory. *)
Definition fs_no_src : FS :=
  mkFS {[ project ]} {[ readme project := hour_readme ]} ∅.

(** The project without its README. *)
Definition fs_no_readme : FS :=
  mkFS {[ project; project // "src" ]} ∅ ∅.

(** The project with a module left by an earlier run. *)
Definition fs_stale : FS :=
  mkFS {[ project; project // "src" ]}
       {[ readme project := hour_readme; output project := "stale" ]} ∅.

(** Tools that fail and leave the files alone: a shell that exits with
    status 1 makes [os.system] return 256. *)
Definition tools_fail : string → FS → Z * FS := λ _ f, (256%Z, f).

(** Tools that pass and leave the files alone. *)
Definition tools_pass : string → FS → Z * FS := λ _ f, (0%Z, f).

(** * Theorems *)

Example partition_scenario :
  partition "intro text
## Examples
foo bar
" marker = Ok ("intro text
", marker, "
foo bar
").
Proof. reflexivity. Qed.

(** ** Facts on strings *)

Lemma append_assoc (s t u : string) : (s +:+ t) +:+ u = s +:+ t +:+ u.
Proof. induction s as [|c s IH]; simpl; [done|by rewrite IH]. Qed.

Lemma append_length (s t : string) :
  String.length (s +:+ t) = String.length s + String.length t.
Proof. induction s as [|c s IH]; simpl; [done|by rewrite IH]. Qed.

Lemma skip_app (s t : string) : Str.skip (String.length s) (s +:+ t) = t.
Proof. induction s as [|c s IH]; simpl; done. Qed.

Lemma strip_prefix_app (p r : string) : Str.strip_prefix p (p +:+ r) = Some r.
Proof.
  induction p as [|a p IH]; simpl; [done|].
  by rewrite Ascii.eqb_refl.
Qed.

Lemma strip_prefix_Some (p s r : string) :
  Str.strip_prefix p s = Some r → s = p +:+ r.
Proof.
  revert s; induction p as [|a p IH]; intros s; simpl.
  - by intros [= ->].
  - destruct s as [|b s]; [done|].
    destruct (Ascii.eqb a b) eqn:E; [|done].
    apply Ascii.eqb_eq in E as ->. by intros ->%IH.
Qed.

Lemma strip_prefix_skip (p s r : string) :
  Str.strip_prefix p s = Some r → r = Str.skip (String.length p) s.
Proof. intros ->%strip_prefix_Some. by rewrite skip_app. Qed.

(** ** Occurrences and [find] *)

Lemma occurrences_from_S (k : nat) (p s : string) :
  Str.occurrences_from (S k) p s = S <$> Str.occurrences_from k p s.
Proof.
  revert k; induction s as [|c s IH]; intros k; simpl.
  - by destruct (Str.strip_prefix p _).
  - rewrite fmap_app, <-IH. by destruct (Str.strip_prefix p _).
Qed.

Lemma occurrences_cons (p : string) (c : ascii) (s : string) :
  Str.occurrences p (String c s) =
    (if Str.strip_prefix p (String c s) is Some _ then [0] else [])
      ++ (S <$> Str.occurrences p s).
Proof. unfold Str.occurrences. simpl. by rewrite occurrences_from_S. Qed.

(** [i] is an offset of [p] in [s] exactly when [s] splits there. *)
Lemma occurrences_spec (p s : string) (i : nat) :
  i ∈ Str.occurrences p s ↔
  ∃ a b, s = a +:+ p +:+ b ∧ String.length a = i.
Proof.
  revert i; induction s as [|c s IH]; intros i.
  - unfold Str.occurrences; simpl. split.
    + destruct (Str.strip_prefix p EmptyString) as [r|] eqn:E; [|by intros ?%elem_of_nil].
      intros ->%list_elem_of_singleton.
      exists EmptyString, r. split; [|done]. by apply strip_prefix_Some in E.
    + intros ([|a0 a] & b & Hs & <-); [|done]. simpl in Hs.
      assert (Str.strip_prefix p EmptyString = Some b) as ->
        by (rewrite Hs; apply strip_prefix_app).
      by apply list_elem_of_singleton.
  - rewrite occurrences_cons, elem_of_app, list_elem_of_fmap. split.
    + intros [Hi|(j & -> & Hj)].
      * destruct (Str.strip_prefix p (String c s)) as [r|] eqn:E; [|by apply elem_of_nil in Hi].
        apply list_elem_of_singleton in Hi as ->.
        exists EmptyString, r. split; [|done]. by apply strip_prefix_Some in E.
      * apply IH in Hj as (a & b & -> & <-). by exists (String c a), b.
    + intros ([|a0 a] & b & Hs & <-).
      * left. simpl in Hs.
        assert (Str.strip_prefix p (String c s) = Some b) as ->
          by (rewrite Hs; apply strip_prefix_app).
        by apply list_elem_of_singleton.
      * right. simpl in Hs. injection Hs as -> ->. exists (String.length a).
        split; [done|]. apply IH. by exists a, b.
Qed.

(** [find] splits at the least offset. *)
Lemma find_occurrences (sep s : string) :
  Str.find sep s =
    match Str.occurrences sep s with
    | [] => None
    | i :: _ => Some (Str.keep i s, Str.skip (i + String.length sep) s)
    end.
Proof.
  induction s as [|c s IH].
  - unfold Str.occurrences; simpl.
    destruct (Str.strip_prefix sep EmptyString) as [r|] eqn:E; [|done].
    simpl. by rewrite (strip_prefix_skip _ _ _ E).
  - rewrite occurrences_cons. simpl Str.find.
    destruct (Str.strip_prefix sep (String c s)) as [r|] eqn:E.
    + simpl. by rewrite (strip_prefix_skip _ _ _ E).
    + rewrite IH. simpl. by destruct (Str.occurrences sep s).
Qed.

(** ** The examples segment *)

Lemma examples_r_total (src : string) : examples_r src = Ok (examples src).
Proof.
  unfold examples, examples_r, partition, marker.
  by destruct (Str.find _ src) as [[??]|].
Qed.

Lemma examples_found (src : string) (i : nat) (rest : list nat) :
  Str.occurrences marker src = i :: rest →
  examples src = Str.skip (i + String.length marker) src.
Proof.
  intros H. unfold examples, examples_r, partition.
  change (Str.find _ src) with (Str.find marker src).
  by rewrite find_occurrences, H.
Qed.

Lemma examples_absent (src : string) :
  Str.occurrences marker src = [] → examples src = EmptyString.
Proof.
  intros H. unfold examples, examples_r, partition.
  change (Str.find _ src) with (Str.find marker src).
  by rewrite find_occurrences, H.
Qed.

(** ** Comments of the generated module *)

(** The layout of the template, for every segment: between its second
    [{-|] and its last [-}] it puts a line break, the segment and a line
    break. *)
Lemma elm_src_layout (seg : string) :
  elm_src seg = template_open +:+ (nl +:+ seg +:+ nl) +:+ template_close.
Proof. unfold elm_src, template_open. simpl. by rewrite append_assoc. Qed.

(** Induction on strings, two characters at a time. *)
Lemma string_pair_ind (P : string → Prop) :
  P EmptyString →
  (∀ c, P (String c EmptyString)) →
  (∀ c c' t, P t → P (String c' t) → P (String c (String c' t))) →
  ∀ s, P s.
Proof.
  intros H0 H1 H2 s.
  assert (H : P s ∧ ∀ c, P (String c s)); [|by destruct H].
  induction s as [|c' t [IH1 IH2]]; [by split|].
  split; [by apply IH2|]. intros c. by apply H2.
Qed.

Lemma add_body_add_body (x y : string) (r : lexed) :
  add_body x (add_body y r) = add_body (x +:+ y) r.
Proof.
  destruct r as [code [|b bs]]; unfold add_body; simpl; [done|].
  by rewrite append_assoc.
Qed.

Lemma add_body_fmap (x y : string) (o : option lexed) :
  add_body x <$> (add_body y <$> o) = add_body (x +:+ y) <$> o.
Proof. destruct o as [r|]; simpl; [|done]. by rewrite add_body_add_body. Qed.

(** One step of [scan] inside a block comment, and of [nesting]. *)
Lemma scan_block_step (d : nat) (c : ascii) (t : string) :
  scan (Block d) (String c t) =
    let plain := add_body (String c EmptyString) <$> scan (Block d) t in
    if Ascii.eqb c "{" then
      match t with
      | String c' t' =>
          if Ascii.eqb c' "-" then add_body "{-" <$> scan (Block (S d)) t'
          else plain
      | EmptyString => plain
      end
    else if Ascii.eqb c "-" then
      match t with
      | String c' t' =>
          if Ascii.eqb c' "}" then
            match d with
            | O => new_body <$> scan Code t'
            | S d' => add_body "-}" <$> scan (Block d') t'
            end
          else plain
      | EmptyString => plain
      end
    else plain.
Proof. done. Qed.

Lemma nesting_step (d : nat) (c : ascii) (t : string) :
  nesting d (String c t) =
    if Ascii.eqb c "{" then
      match t with
      | String c' t' => if Ascii.eqb c' "-" then nesting (S d) t' else nesting d t
      | EmptyString => Some d
      end
    else if Ascii.eqb c "-" then
      match t with
      | String c' t' =>
          if Ascii.eqb c' "}" then
            match d with
            | O => None
            | S d' => nesting d' t'
            end
          else nesting d t
      | EmptyString => Some d
      end
    else nesting d t.
Proof. done. Qed.

(** What [scan] returns from inside a block comment has a first body. *)
Lemma scan_block_bodies (s : string) (d : nat) (r : lexed) :
  scan (Block d) s = Some r → ∃ b bs, r.2 = b :: bs.
Proof.
  assert (Hadd : ∀ x (o : option lexed),
            add_body x <$> o = Some r → ∃ b bs, r.2 = b :: bs).
  { intros x [[code [|b bs]]|]; simpl; [| |done]; intros [= <-]; eauto. }
  assert (Hnew : ∀ o : option lexed,
            new_body <$> o = Some r → ∃ b bs, r.2 = b :: bs).
  { intros [r'|]; simpl; [|done]. intros [= <-]. simpl. eauto. }
  destruct s as [|c t]; [done|]. cbn [scan].
  destruct (Ascii.eqb c "{"); [|destruct (Ascii.eqb c "-")];
    try apply Hadd;
    (destruct t as [|c' t']; [apply Hadd|]).
  - destruct (Ascii.eqb c' "-"); apply Hadd.
  - destruct (Ascii.eqb c' "}"); [|apply Hadd].
    destruct d; [apply Hnew|apply Hadd].
Qed.

Lemma add_body_empty (s : string) (d : nat) :
  add_body EmptyString <$> scan (Block d) s = scan (Block d) s.
Proof.
  destruct (scan (Block d) s) as [r|] eqn:E; simpl; [|done].
  destruct (scan_block_bodies s d r E) as (b & bs & Hr).
  destruct r as [code bodies]. simpl in Hr. subst bodies. done.
Qed.

(** A segment read inside a block comment, up to a line break after it:
    when the segment does not close the comment, the body takes the whole
    segment, and the depth after it is [nesting]'s. *)
Lemma scan_block_segment (seg : string) :
  ∀ (d d' : nat) (rest : string),
    nesting d seg = Some d' →
    scan (Block d) (seg +:+ String newline rest) =
      add_body seg <$> scan (Block d') (String newline rest).
Proof.
  induction seg as [|c|c c' t IHt IHc] using string_pair_ind; intros d d' rest Hd.
  - injection Hd as <-. simpl String.append. by rewrite add_body_empty.
  - assert (d' = d) as ->.
    { cbn [nesting] in Hd.
      destruct (Ascii.eqb c "{"); [|destruct (Ascii.eqb c "-")]; by injection Hd. }
    simpl String.append. cbn [scan].
    rewrite (Ascii.eqb_sym newline "-"), (Ascii.eqb_sym newline "}"). simpl Ascii.eqb.
    by destruct (Ascii.eqb c "{"); [|destruct (Ascii.eqb c "-")].
  - rewrite nesting_step in Hd. simpl String.append.
    rewrite scan_block_step. cbv beta match zeta in Hd |- *.
    assert (Hplain : nesting d (String c' t) = Some d' →
      add_body (String c EmptyString)
        <$> scan (Block d) (String c' (t +:+ String newline rest))
      = add_body (String c (String c' t)) <$> scan (Block d') (String newline rest)).
    { intros H. change (String c' (t +:+ ?x)) with (String c' t +:+ x).
      by rewrite (IHc d d' rest H), add_body_fmap. }
    destruct (Ascii.eqb c "{") eqn:Ec.
    + destruct (Ascii.eqb c' "-") eqn:Ec'; [|by apply Hplain].
      apply Ascii.eqb_eq in Ec as ->. apply Ascii.eqb_eq in Ec' as ->.
      by rewrite (IHt (S d) d' rest Hd), add_body_fmap.
    + destruct (Ascii.eqb c "-") eqn:Ec2; [|by apply Hplain].
      destruct (Ascii.eqb c' "}") eqn:Ec'; [|by apply Hplain].
      destruct d as [|d0]; [done|].
      apply Ascii.eqb_eq in Ec2 as ->. apply Ascii.eqb_eq in Ec' as ->.
      by rewrite (IHt d0 d' rest Hd), add_body_fmap.
Qed.

(** When the segment closes the comment it is read in, the body of that
    comment is shorter than the segment, whatever follows. *)
Lemma scan_block_closed (seg : string) :
  ∀ (d : nat) (rest : string) (r : lexed),
    nesting d seg = None →
    scan (Block d) (seg +:+ rest) = Some r →
    ∃ b bs, r.2 = b :: bs ∧ String.length b < String.length seg.
Proof.
  induction seg as [|c|c c' t IHt IHc] using string_pair_ind; intros d rest r Hd.
  - done.
  - cbn [nesting] in Hd.
    by destruct (Ascii.eqb c "{"); [|destruct (Ascii.eqb c "-")].
  - rewrite nesting_step in Hd. simpl String.append.
    rewrite scan_block_step. cbv beta match zeta in Hd |- *.
    assert (Hadd : ∀ x s d0,
      nesting d0 s = None →
      (∀ r0, scan (Block d0) (s +:+ rest) = Some r0 →
         ∃ b bs, r0.2 = b :: bs ∧ String.length b < String.length s) →
      String.length x + String.length s = String.length (String c (String c' t)) →
      add_body x <$> scan (Block d0) (s +:+ rest) = Some r →
      ∃ b bs, r.2 = b :: bs ∧ String.length b < String.length (String c (String c' t))).
    { intros x s d0 Hn IH Hlen.
      destruct (scan (Block d0) (s +:+ rest)) as [r0|] eqn:E; simpl; [|done].
      destruct (IH r0 eq_refl) as (b & bs & Hr0 & Hb).
      intros [= <-]. unfold add_body. rewrite Hr0. simpl.
      exists (x +:+ b), bs. split; [done|]. rewrite append_length.
      simpl in Hlen |- *. lia. }
    assert (Hplain : nesting d (String c' t) = None →
      add_body (String c EmptyString)
        <$> scan (Block d) (String c' (t +:+ rest)) = Some r →
      ∃ b bs, r.2 = b :: bs ∧ String.length b < String.length (String c (String c' t))).
    { intros H. change (String c' (t +:+ ?x)) with (String c' t +:+ x).
      apply Hadd; [done| |done]. intros r0. by apply IHc. }
    destruct (Ascii.eqb c "{") eqn:Ec.
    + destruct (Ascii.eqb c' "-") eqn:Ec'; [|by apply Hplain].
      apply (Hadd _ t (S d)); [done| |done]. intros r0. by apply IHt.
    + destruct (Ascii.eqb c "-") eqn:Ec2; [|by apply Hplain].
      destruct (Ascii.eqb c' "}") eqn:Ec'; [|by apply Hplain].
      destruct d as [|d0].
      * destruct (scan Code (t +:+ rest)) as [r0|]; simpl; [|done].
        intros [= <-]. simpl. exists EmptyString, r0.2. split; [done|]. simpl. lia.
      * apply (Hadd _ t d0); [done| |done]. intros r0. by apply IHt.
Qed.

(** The comments and the code of a generated module whose segment is
    balanced: the template's two comments, and the template's code. *)
Lemma scan_elm_src (seg : string) :
  balanced seg = true →
  scan Code (elm_src seg) =
    Some (template_code,
          ["| AUTO GENERATED -- DO NOT EDIT "; "|" +:+ nl +:+ seg +:+ nl]).
Proof.
  intros Hb%bool_decide_eq_true. unfold elm_src.
  cbn [scan String.append Ascii.eqb Bool.eqb fmap option_fmap option_map].
  rewrite (scan_block_segment seg 0 0 _ Hb). reflexivity.
Qed.

Lemma doc_block_balanced (seg : string) :
  balanced seg = true → doc_block (elm_src seg) = Some (nl +:+ seg +:+ nl).
Proof. intros H. unfold doc_block. by rewrite (scan_elm_src seg H). Qed.

Lemma well_formed_balanced (seg : string) :
  balanced seg = true → well_formed (elm_src seg) = true.
Proof. intros H. unfold well_formed. by rewrite (scan_elm_src seg H). Qed.

(** The block is the framed segment for balanced segments alone. *)
Lemma doc_block_framed_balanced (seg : string) :
  doc_block (elm_src seg) = Some (nl +:+ seg +:+ nl) → balanced seg = true.
Proof.
  intros H. apply bool_decide_eq_true.
  destruct (nesting 0 seg) as [[|d]|] eqn:Hn; [done|exfalso; revert H..];
    unfold doc_block, elm_src;
    cbn [scan String.append Ascii.eqb Bool.eqb fmap option_fmap option_map].
  - rewrite (scan_block_segment seg 0 (S d) _ Hn).
    cbn [scan String.append Ascii.eqb Bool.eqb fmap option_fmap option_map].
    done.
  - destruct (scan (Block 0) (seg +:+ _)) as [r|] eqn:E; [|done].
    destruct (scan_block_closed seg 0 _ r Hn E) as (b & bs & Hr & Hlen).
    destruct r as [code bodies]. simpl in Hr. subst bodies. simpl.
    intros [= Heq]. apply (f_equal String.length) in Heq.
    rewrite append_length in Heq. simpl in Heq. lia.
Qed.

Lemma occurrences_tail (p : string) (c : ascii) (s : string) :
  Str.occurrences p (String c s) = [] → Str.occurrences p s = [].
Proof.
  rewrite occurrences_cons. intros [_ H]%app_eq_nil.
  by apply fmap_nil_inv in H.
Qed.

(** A segment without comment delimiters is balanced. *)
Lemma nesting_no_delimiter (seg : string) (d : nat) :
  Str.occurrences "{-" seg = [] → Str.occurrences "-}" seg = [] →
  nesting d seg = Some d.
Proof.
  induction seg as [|c t IH]; intros Ho Hc; [done|].
  specialize (IH (occurrences_tail _ _ _ Ho) (occurrences_tail _ _ _ Hc)).
  rewrite occurrences_cons in Ho, Hc.
  apply app_eq_nil in Ho as [Ho _]. apply app_eq_nil in Hc as [Hc _].
  cbn [nesting]. simpl in Ho, Hc.
  destruct (Ascii.eqb c "{") eqn:E1.
  - apply Ascii.eqb_eq in E1 as ->. destruct t as [|c' t']; [done|].
    destruct (Ascii.eqb c' "-") eqn:E2; [|done].
    apply Ascii.eqb_eq in E2 as ->. done.
  - destruct (Ascii.eqb c "-") eqn:E3; [|done].
    apply Ascii.eqb_eq in E3 as ->. destruct t as [|c' t']; [done|].
    destruct (Ascii.eqb c' "}") eqn:E2; [|done].
    apply Ascii.eqb_eq in E2 as ->. done.
Qed.

Lemma balanced_no_delimiter (seg : string) :
  Str.occurrences "{-" seg = [] → Str.occurrences "-}" seg = [] →
  balanced seg = true.
Proof.
  intros Ho Hc. apply bool_decide_eq_true. by apply nesting_no_delimiter.
Qed.

(** ** Runs of the script *)

Lemma partition_marker (src : string) :
  ∃ before sep, partition src "## Examples" = Ok (before, sep, examples src).
Proof.
  unfold examples, examples_r, marker, partition.
  destruct (Str.find _ src) as [[b a]|]; eauto.
Qed.

Lemma fs_write_writable (p : Path) (data : string) (f : FS) :
  writable p f = true →
  fs_write p data f = Ok (mkFS (dirs f) (<[p := data]> (files f)) (locked f)).
Proof.
  intros (Hp & Hd & Hl)%bool_decide_eq_true. unfold fs_write.
  by rewrite !decide_True, ?decide_False by done.
Qed.

Lemma fs_write_unwritable (p : Path) (data : string) (f : FS) :
  writable p f = false →
  ∃ e, fs_write p data f = Raise e ∧ is_OSError e = true.
Proof.
  intros H%bool_decide_eq_false. unfold fs_write.
  repeat case_decide; eauto. destruct H. done.
Qed.

Lemma no_parent_unwritable (p : Path) (f : FS) :
  parent p ∉ dirs f → writable p f = false.
Proof. intros H. apply bool_decide_eq_false. by intros [? _]. Qed.

Lemma fs_read_error (p : Path) (f : FS) (e : exn) :
  fs_read p f = Raise e → is_OSError e = true.
Proof.
  unfold fs_read. case_decide; [by intros [= <-]|].
  destruct (files f !! p); [|by intros [= <-]].
  case_decide; [by intros [= <-]|done].
Qed.

Lemma writes_snoc_wrote (t : list event) (p : Path) (d : string) :
  writes (t ++ [Wrote p d]) = writes t ++ [(p, d)].
Proof. unfold writes. by rewrite omap_app. Qed.

Lemma writes_snoc_spawned (t : list event) (c : string) (z : Z) :
  writes (t ++ [Spawned c z]) = writes t.
Proof. unfold writes. rewrite omap_app. simpl. by rewrite (right_id_L [] (++)). Qed.

Section Runs.

Context (BASE : Path) (sh : string → FS → Z * FS).

(** [generate] reads, then writes the module built from what it read. *)
Lemma generate_run (w : World) :
  generate BASE w =
    match fs_read (readme BASE) (fs w) with
    | Ok src =>
        let module := generated src in
        match fs_write (output BASE) module (fs w) with
        | Ok f' =>
            (Ok (String.length module),
             mkWorld f' (trace w ++ [Wrote (output BASE) module]))
        | Raise e => (Raise e, w)
        end
    | Raise e => (Raise e, w)
    end.
Proof.
  unfold generate, mbind, M_bind, read_text, lift, write_text.
  destruct (fs_read _ _) as [src|e]; [|done].
  destruct (partition_marker src) as (b & s & ->). done.
Qed.

Lemma script_run (w : World) :
  script BASE sh w =
    match generate BASE w with
    | (Ok _, w1) =>
        let r := sh (command BASE) (fs w1) in
        (Ok tt, mkWorld r.2 (trace w1 ++ [Spawned (command BASE) r.1]))
    | (Raise e, w1) => (Raise e, w1)
    end.
Proof.
  unfold script, mbind, M_bind, system, mret, M_ret.
  by destruct (generate BASE w) as [[n|e] w1].
Qed.

Lemma output_not_readme : output BASE ≠ readme BASE.
Proof.
  unfold output, readme, div. intros H%(f_equal length).
  rewrite !length_app in H. simpl in H. lia.
Qed.

Lemma script_ok (w : World) (src : string) :
  fs_read (readme BASE) (fs w) = Ok src →
  writable (output BASE) (fs w) = true →
  let f1 := mkFS (dirs (fs w)) (<[output BASE := generated src]> (files (fs w)))
                 (locked (fs w)) in
  let r := sh (command BASE) f1 in
  script BASE sh w =
    (Ok tt,
     mkWorld r.2 (trace w ++ [Wrote (output BASE) (generated src);
                              Spawned (command BASE) r.1])).
Proof.
  intros Hr Hw. rewrite script_run, generate_run, Hr. simpl.
  rewrite (fs_write_writable _ _ _ Hw). simpl. by rewrite <-(assoc_L (++)).
Qed.

Lemma script_raise (w : World) (e : exn) :
  (generate BASE w).1 = Raise e → script BASE sh w = (Raise e, w).
Proof.
  rewrite script_run, generate_run.
  destruct (fs_read _ _) as [src|e1]; simpl.
  - destruct (fs_write _ _ _) as [f'|e2]; simpl; [done|]. by intros [= ->].
  - by intros [= ->].
Qed.

(** What a run that ends normally read and wrote. *)
Lemma script_ok_inv (w : World) :
  (script BASE sh w).1 = Ok tt →
  ∃ src, fs_read (readme BASE) (fs w) = Ok src ∧
    files (fs (generate BASE w).2) !! output BASE = Some (generated src) ∧
    writes (trace (script BASE sh w).2) =
      writes (trace w) ++ [(output BASE, generated src)].
Proof.
  rewrite script_run, generate_run.
  destruct (fs_read _ _) as [src|e]; simpl; [|done].
  destruct (fs_write _ _ _) as [f'|e] eqn:Hw; simpl; [|done].
  intros _. exists src. split_and!; [done| |].
  - revert Hw. unfold fs_write. repeat case_decide; try done.
    intros [= <-]. simpl. by rewrite lookup_insert_eq.
  - by rewrite writes_snoc_spawned, writes_snoc_wrote.
Qed.

Lemma generate_frame (w : World) (p : Path) :
  p ≠ output BASE →
  files (fs (generate BASE w).2) !! p = files (fs w) !! p.
Proof.
  intros Hp. rewrite generate_run.
  destruct (fs_read _ _) as [src|e]; simpl; [|done].
  unfold fs_write. repeat case_decide; simpl; try done.
  by rewrite lookup_insert_ne.
Qed.

End Runs.

(** With tools that leave the files alone, the files after a whole run
    differ from the files before it at the output path alone. *)
Lemma script_frame_inert_tools (BASE : Path) (status : Z) (w : World) (p : Path) :
  p ≠ output BASE →
  files (fs (script BASE (λ _ f, (status, f)) w).2) !! p = files (fs w) !! p.
Proof.
  intros Hp. pose proof (generate_frame BASE w p Hp) as H.
  rewrite script_run. by destruct (generate BASE w) as [[n|e] w1].
Qed.

(** * The claims *)

(** C1, as amended. For every README text that holds the marker exactly
    once, at offset [i], and whose text after the marker has balanced
    comment delimiters, the documentation-comment block of the generated
    module (the text between the delimiters of its second comment) is the
    text from the end of the marker to the end of the README, byte for
    byte, with one line break before it and one after it. *)
Theorem doc_block_after_marker (src : string) (i : nat) :
  Str.occurrences marker src = [i] →
  balanced (Str.skip (i + String.length marker) src) = true →
  doc_block (generated src) =
    Some (nl +:+ Str.skip (i + String.length marker) src +:+ nl).
Proof.
  intros Hi Hb. unfold generated.
  rewrite (examples_found src i [] Hi). by apply doc_block_balanced.
Qed.

Lemma doc_block_after_marker_witness :
  doc_block (generated hour_readme) =
    Some (nl +:+ Str.skip (7 + String.length marker) hour_readme +:+ nl).
Proof.
  apply (doc_block_after_marker hour_readme 7); vm_compute; reflexivity.
Defined.

(** C1, as stated, fails twice. With [b] after the marker the block is
    [b] between two line breaks, not [b]; with [b-}c] after the marker the
    block ends at the delimiter of the README. *)
Lemma doc_block_not_suffix :
  (Str.occurrences marker "a## Examplesb" = [1] ∧
   doc_block (generated "a## Examplesb") = Some (nl +:+ "b" +:+ nl) ∧
   doc_block (generated "a## Examplesb")
     ≠ Some (Str.skip (1 + String.length marker) "a## Examplesb")) ∧
  (Str.occurrences marker "a## Examplesb-}c" = [1] ∧
   doc_block (generated "a## Examplesb-}c") = Some (nl +:+ "b") ∧
   doc_block (generated "a## Examplesb-}c")
     ≠ Some (nl +:+ Str.skip (1 + String.length marker) "a## Examplesb-}c" +:+ nl)).
Proof. repeat split; by vm_compute. Qed.

(** C2, as amended. For every README text without the marker, the examples
    segment is the empty string, the documentation-comment block holds the
    two line breaks of the template and nothing else, and nothing fails for
    want of the marker: the extraction returns, the module is well formed,
    and the script ends normally wherever the README can be read and the
    module written. *)
Theorem no_marker_blank_block (src : string) :
  Str.occurrences marker src = [] →
  examples_r src = Ok EmptyString ∧
  generated src = elm_src EmptyString ∧
  doc_block (generated src) = Some (nl +:+ nl) ∧
  well_formed (generated src) = true ∧
  ∀ (BASE : Path) (sh : string → FS → Z * FS) (w : World),
    fs_read (readme BASE) (fs w) = Ok src →
    writable (output BASE) (fs w) = true →
    (script BASE sh w).1 = Ok tt.
Proof.
  intros H. pose proof (examples_absent src H) as He.
  split; [by rewrite examples_r_total, He|]. unfold generated. rewrite He.
  repeat split; [by vm_compute..|].
  intros BASE sh w Hr Hw. by rewrite (script_ok BASE sh w src Hr Hw).
Qed.

Lemma no_marker_blank_block_witness :
  examples_r "no marker here" = Ok EmptyString ∧
  generated "no marker here" = elm_src EmptyString ∧
  doc_block (generated "no marker here") = Some (nl +:+ nl) ∧
  well_formed (generated "no marker here") = true ∧
  ∀ (BASE : Path) (sh : string → FS → Z * FS) (w : World),
    fs_read (readme BASE) (fs w) = Ok "no marker here" →
    writable (output BASE) (fs w) = true →
    (script BASE sh w).1 = Ok tt.
Proof. apply (no_marker_blank_block "no marker here"); vm_compute; reflexivity. Defined.

(** C2, as stated, fails: without the marker the block is not empty, it
    holds two line breaks. *)
Lemma no_marker_block_not_empty :
  Str.occurrences marker "no marker here" = [] ∧
  doc_block (generated "no marker here") = Some (nl +:+ nl) ∧
  doc_block (generated "no marker here") ≠ Some EmptyString.
Proof. repeat split; by vm_compute. Qed.

(** C3, as amended. For every README text the head and the foot of the
    template stand unchanged around the examples segment, whatever the
    segment holds; and for every README text whose examples segment has
    balanced comment delimiters (so for every segment without comment
    delimiters), the generated module is well formed for the
    documentation-test tool: its comments are the warning of the template
    and the block around the segment, and the code outside them is the
    module line and the placeholder declaration of the template. *)
Theorem well_formed_when_balanced (src : string) :
  generated src =
    template_open +:+ (nl +:+ examples src +:+ nl) +:+ template_close ∧
  (balanced (examples src) = true →
   scan Code (generated src) =
     Some (template_code,
           ["| AUTO GENERATED -- DO NOT EDIT ";
            "|" +:+ nl +:+ examples src +:+ nl]) ∧
   well_formed (generated src) = true).
Proof.
  split; [by apply elm_src_layout|].
  intros H. split; [by apply scan_elm_src|by apply well_formed_balanced].
Qed.

Lemma well_formed_when_balanced_witness :
  scan Code (generated hour_readme) =
    Some (template_code,
          ["| AUTO GENERATED -- DO NOT EDIT ";
           "|" +:+ nl +:+ examples hour_readme +:+ nl]) ∧
  well_formed (generated hour_readme) = true.
Proof.
  apply (proj2 (well_formed_when_balanced hour_readme)). vm_compute; reflexivity.
Defined.

(** C3, as stated, fails. A segment [-}] closes the block of the template,
    whose own [-}] is then left in the code; a segment [{-] opens a comment
    that the template closes, and the block of the template stays open. *)
Lemma ill_formed_on_delimiters :
  well_formed (generated "## Examples-}") = false ∧
  (fst <$> scan Code (generated "## Examples-}")) = Some "
module Examples exposing (..)




-}
test : Maybe Never
test =
    Nothing
" ∧
  well_formed (generated "## Examples{-") = false ∧
  scan Code (generated "## Examples{-") = None.
Proof. repeat split; by vm_compute. Qed.

(** C4, as amended. For the README [intro text], [## Examples], [foo bar]
    (three lines), the examples segment is a line break, [foo bar] and a
    line break, and the documentation block of the generated module is
    that text with one more line break before it and one more after it. *)
Theorem scenario_segment_and_block :
  partition scenario_readme "## Examples" =
    Ok ("intro text" +:+ nl, "## Examples", nl +:+ "foo bar" +:+ nl) ∧
  examples scenario_readme = nl +:+ "foo bar" +:+ nl ∧
  doc_block (generated scenario_readme) =
    Some (nl +:+ (nl +:+ "foo bar" +:+ nl) +:+ nl).
Proof. repeat split; by vm_compute. Qed.

(** C4, as stated, fails: the text between the comment delimiters is not
    exactly the segment, it has two line breaks more. *)
Lemma scenario_block_not_segment :
  examples scenario_readme = nl +:+ "foo bar" +:+ nl ∧
  doc_block (generated scenario_readme) ≠ Some (nl +:+ "foo bar" +:+ nl).
Proof. split; by vm_compute. Qed.

(** C8, as amended. For every README text the template puts exactly one
    line break before the examples segment and one after it, between its
    second [{-|] and its last [-}]; and the documentation-comment block of
    the generated module is that text, the segment with one line break
    before it and one after it, exactly when the segment has balanced
    comment delimiters. *)
Theorem doc_block_newline_framed (src : string) :
  generated src =
    template_open +:+ (nl +:+ examples src +:+ nl) +:+ template_close ∧
  (doc_block (generated src) = Some (nl +:+ examples src +:+ nl)
   ↔ balanced (examples src) = true).
Proof.
  split; [by apply elm_src_layout|]. split.
  - by apply doc_block_framed_balanced.
  - by apply doc_block_balanced.
Qed.

Lemma doc_block_newline_framed_witness :
  doc_block (generated scenario_readme) =
    Some (nl +:+ examples scenario_readme +:+ nl).
Proof.
  apply (doc_block_newline_framed scenario_readme). vm_compute; reflexivity.
Defined.

(** C8, as stated, fails: when the segment is [-}] the block ends there,
    and it is one line break. *)
Lemma doc_block_cut_at_delimiter :
  examples "## Examples-}" = "-}" ∧
  doc_block (generated "## Examples-}") = Some nl ∧
  doc_block (generated "## Examples-}")
    ≠ Some (nl +:+ examples "## Examples-}" +:+ nl).
Proof. repeat split; by vm_compute. Qed.

(** C9. Two README texts whose texts after the first occurrence of the
    marker are equal give the same module: the module is built from the
    text after the first occurrence alone. *)
Theorem preamble_noninterference (r1 r2 : string) (i1 i2 : nat) :
  head (Str.occurrences marker r1) = Some i1 →
  head (Str.occurrences marker r2) = Some i2 →
  Str.skip (i1 + String.length marker) r1 = Str.skip (i2 + String.length marker) r2 →
  generated r1 = generated r2 ∧
  generated r1 = elm_src (Str.skip (i1 + String.length marker) r1).
Proof.
  intros H1 H2 Heq.
  destruct (Str.occurrences marker r1) as [|j1 l1] eqn:E1; [done|].
  destruct (Str.occurrences marker r2) as [|j2 l2] eqn:E2; [done|].
  simpl in H1, H2. injection H1 as ->. injection H2 as ->.
  unfold generated.
  by rewrite (examples_found r1 i1 l1 E1), (examples_found r2 i2 l2 E2), Heq.
Qed.

Lemma preamble_noninterference_witness :
  generated "a long preamble## Examples 1 ## Examples 2" =
    generated "## Examples 1 ## Examples 2" ∧
  generated "a long preamble## Examples 1 ## Examples 2" =
    elm_src (Str.skip (15 + String.length marker)
               "a long preamble## Examples 1 ## Examples 2").
Proof.
  apply (preamble_noninterference _ "## Examples 1 ## Examples 2" 15 0);
    vm_compute; reflexivity.
Defined.

(** C5. When the script runs twice in a row, both runs end normally and
    the README reads the same before the second run as before the first,
    the two runs write the same module text, byte for byte, and it is the
    text the README determines: each run hands the tools a file that holds
    [generated src], and each write of the trace is that text. *)
Theorem script_twice_same_module
    (BASE : Path) (sh : string → FS → Z * FS) (w : World) :
  (script BASE sh w).1 = Ok tt →
  (script BASE sh (script BASE sh w).2).1 = Ok tt →
  fs_read (readme BASE) (fs (script BASE sh w).2) = fs_read (readme BASE) (fs w) →
  ∃ src,
    fs_read (readme BASE) (fs w) = Ok src ∧
    files (fs (generate BASE w).2) !! output BASE = Some (generated src) ∧
    files (fs (generate BASE (script BASE sh w).2).2) !! output BASE
      = Some (generated src) ∧
    writes (trace (script BASE sh (script BASE sh w).2).2) =
      writes (trace w) ++ [(output BASE, generated src); (output BASE, generated src)].
Proof.
  intros H1 H2 Hsame.
  destruct (script_ok_inv BASE sh w H1) as (src & Hr & Hf1 & Hw1).
  destruct (script_ok_inv BASE sh _ H2) as (src' & Hr' & Hf2 & Hw2).
  rewrite Hsame, Hr in Hr'. injection Hr' as <-.
  exists src. split_and!; [done..|].
  by rewrite Hw2, Hw1, <-(assoc_L (++)).
Qed.

Lemma script_twice_same_module_witness :
  ∃ src,
    fs_read (readme project) fs_ready = Ok src ∧
    files (fs (generate project (mkWorld fs_ready [])).2) !! output project
      = Some (generated src) ∧
    files (fs (generate project
                 (script project tools_pass (mkWorld fs_ready [])).2).2)
      !! output project = Some (generated src) ∧
    writes (trace (script project tools_pass
                     (script project tools_pass (mkWorld fs_ready [])).2).2) =
      [(output project, generated src); (output project, generated src)].
Proof.
  apply (script_twice_same_module project tools_pass (mkWorld fs_ready []));
    vm_compute; reflexivity.
Defined.

(** C6, as amended. The exit status of the script does not depend on what
    the shell reports: it is the status of the steps before the shell, and
    it is 0 whenever the README is read and the module written, while the
    status of the command line is the value of [system], which the script
    drops. *)
Theorem exit_status_ignores_shell
    (BASE : Path) (sh : string → FS → Z * FS) (w : World) :
  exit_status (script BASE sh w).1 = exit_status (generate BASE w).1 ∧
  ∀ src,
    fs_read (readme BASE) (fs w) = Ok src →
    writable (output BASE) (fs w) = true →
    exit_status (script BASE sh w).1 = 0%Z ∧
    trace (script BASE sh w).2 =
      trace (generate BASE w).2 ++
        [Spawned (command BASE) (sh (command BASE) (fs (generate BASE w).2)).1].
Proof.
  split.
  - rewrite script_run. by destruct (generate BASE w) as [[n|e] w1].
  - intros src Hr Hw. rewrite script_run, generate_run, Hr. simpl.
    by rewrite (fs_write_writable _ _ _ Hw).
Qed.

(** C6, as stated, fails: the shell reports a failing status, 256, and the
    script still ends with status 0. *)
Lemma failing_tools_exit_zero :
  trace (script project tools_fail (mkWorld fs_ready [])).2 =
    [Wrote (output project) (generated hour_readme);
     Spawned "cd /elm-hour && elm-doc-test && elm-test" 256] ∧
  exit_status (script project tools_fail (mkWorld fs_ready [])).1 = 0%Z ∧
  exit_status (script project tools_fail (mkWorld fs_ready [])).1
    ≠ (tools_fail (command project) (fs (generate project (mkWorld fs_ready [])).2)).1.
Proof. repeat split; by vm_compute. Qed.

(** C7. When the output path cannot be written, as when its parent
    directory does not exist, the write fails with a file access error for
    any text, the script ends with a file access error and leaves the world
    as it was, so no process is spawned; and when the README can be read,
    the error of the script is the error of the write. *)
Theorem unwritable_output_no_process
    (BASE : Path) (sh : string → FS → Z * FS) (w : World) :
  writable (output BASE) (fs w) = false →
  (∀ data, ∃ e, write_text (output BASE) data w = (Raise e, w) ∧ is_OSError e = true) ∧
  (∃ e, script BASE sh w = (Raise e, w) ∧ is_OSError e = true) ∧
  spawned (trace (script BASE sh w).2) = spawned (trace w) ∧
  ∀ src, fs_read (readme BASE) (fs w) = Ok src →
    ∃ e, fs_write (output BASE) (generated src) (fs w) = Raise e ∧
         script BASE sh w = (Raise e, w).
Proof.
  intros Hw.
  assert (Hs : ∃ e, script BASE sh w = (Raise e, w) ∧ is_OSError e = true).
  { rewrite script_run, generate_run.
    destruct (fs_read _ _) as [src|e] eqn:Hr; simpl.
    - destruct (fs_write_unwritable _ (generated src) _ Hw) as (e & -> & Hos).
      by exists e.
    - exists e. split; [done|]. by apply (fs_read_error _ _ _ Hr). }
  split_and!.
  - intros data. destruct (fs_write_unwritable _ data _ Hw) as (e & He & Hos).
    exists e. unfold write_text. by rewrite He.
  - done.
  - destruct Hs as (e & -> & _). done.
  - intros src Hr. destruct (fs_write_unwritable _ (generated src) _ Hw) as (e & He & _).
    exists e. split; [done|]. rewrite script_run, generate_run, Hr. simpl. by rewrite He.
Qed.

Lemma unwritable_output_no_process_witness :
  bool_decide (parent (output project) ∈ dirs fs_no_src) = false ∧
  (∀ data, ∃ e, write_text (output project) data (mkWorld fs_no_src [])
                  = (Raise e, mkWorld fs_no_src []) ∧ is_OSError e = true) ∧
  (∃ e, script project tools_pass (mkWorld fs_no_src [])
          = (Raise e, mkWorld fs_no_src []) ∧ is_OSError e = true) ∧
  spawned (trace (script project tools_pass (mkWorld fs_no_src [])).2) = [] ∧
  ∀ src, fs_read (readme project) fs_no_src = Ok src →
    ∃ e, fs_write (output project) (generated src) fs_no_src = Raise e ∧
         script project tools_pass (mkWorld fs_no_src []) = (Raise e, mkWorld fs_no_src []).
Proof.
  split; [vm_compute; reflexivity|].
  apply (unwritable_output_no_process project tools_pass (mkWorld fs_no_src [])).
  vm_compute; reflexivity.
Defined.

(** C10. The script itself writes one file, [src/Examples.elm] under its
    base directory. Up to the call of the shell no other file changes, the
    README among them, and no directory or permission changes; a run that
    ends normally has written exactly once, to that path, and leaves the
    files as the tools left them; a run that fails leaves the world as it
    was. *)
Theorem script_writes_output_only
    (BASE : Path) (sh : string → FS → Z * FS) (w : World) :
  (∀ p, p ≠ output BASE →
     files (fs (generate BASE w).2) !! p = files (fs w) !! p) ∧
  files (fs (generate BASE w).2) !! readme BASE = files (fs w) !! readme BASE ∧
  dirs (fs (generate BASE w).2) = dirs (fs w) ∧
  locked (fs (generate BASE w).2) = locked (fs w) ∧
  ((script BASE sh w).1 = Ok tt →
     (∃ data, writes (trace (script BASE sh w).2) =
                writes (trace w) ++ [(output BASE, data)]) ∧
     fs (script BASE sh w).2 = (sh (command BASE) (fs (generate BASE w).2)).2) ∧
  (∀ e, (script BASE sh w).1 = Raise e → (script BASE sh w).2 = w).
Proof.
  split_and!.
  - intros p Hp. by apply generate_frame.
  - apply generate_frame. intros H. by apply (output_not_readme BASE).
  - rewrite generate_run. destruct (fs_read _ _) as [src|e]; simpl; [|done].
    unfold fs_write. by repeat case_decide.
  - rewrite generate_run. destruct (fs_read _ _) as [src|e]; simpl; [|done].
    unfold fs_write. by repeat case_decide.
  - intros Hok. destruct (script_ok_inv BASE sh w Hok) as (src & _ & _ & Hw).
    split; [by exists (generated src)|].
    revert Hok. rewrite script_run.
    by destruct (generate BASE w) as [[n|e] w1].
  - intros e. rewrite script_run.
    destruct (generate BASE w) as [[n|e'] w1] eqn:Hg; simpl; [done|].
    intros _. f_equal.
    assert (H : (generate BASE w).1 = Raise e') by (by rewrite Hg).
    pose proof (script_raise BASE sh w e' H) as Hs.
    rewrite script_run, Hg in Hs. by injection Hs.
Qed.


(** * More of the script *)

(** ** The split of the README *)


Lemma keep_app (s t : string) : Str.keep (String.length s) (s +:+ t) = s.
Proof. induction s as [|c s IH]; simpl; [done|by rewrite IH]. Qed.

Lemma append_nil_r (s : string) : s +:+ EmptyString = s.
Proof. induction s as [|c s IH]; simpl; [done|by rewrite IH]. Qed.

Lemma skip_plus_app (s t : string) (n : nat) :
  Str.skip (String.length s + n) (s +:+ t) = Str.skip n t.
Proof. induction s as [|c s IH]; simpl; done. Qed.




(** X1. [partition] loses nothing: whenever it returns, its three parts
    put together are the text it was given. *)
Theorem partition_join (s sep before mid after : string) :
  partition s sep = Ok (before, mid, after) →
  before +:+ mid +:+ after = s.
Proof.
  unfold partition. destruct sep as [|c sep']; [done|].
  rewrite find_occurrences.
  destruct (Str.occurrences _ s) as [|i l] eqn:E.
  - intros [= <- <- <-]. simpl. apply append_nil_r.
  - intros [= <- <- <-].
    assert (Hi : i ∈ Str.occurrences (String c sep') s) by (rewrite E; left).
    apply occurrences_spec in Hi as (a & b & Hs & <-).
    clear E. subst s. rewrite keep_app, skip_plus_app.
    simpl. by rewrite skip_app.
Qed.

Lemma partition_join_witness :
  ("intro text" +:+ nl) +:+ marker +:+ (nl +:+ "foo bar" +:+ nl) = scenario_readme.
Proof.
  apply (partition_join scenario_readme marker). vm_compute; reflexivity.
Defined.



(** ** Failures and effects of a run *)

(** X3. When the README cannot be read, the script stops there with the
    error of the read, a file access error: the world is as it was, so
    nothing is written and no process is spawned, and the exit status
    is 1. *)
Theorem unreadable_readme_stops
    (BASE : Path) (sh : string → FS → Z * FS) (w : World) (e : exn) :
  fs_read (readme BASE) (fs w) = Raise e →
  script BASE sh w = (Raise e, w) ∧
  is_OSError e = true ∧
  exit_status (script BASE sh w).1 = 1%Z.
Proof.
  intros Hr.
  assert (Hs : script BASE sh w = (Raise e, w)).
  { apply script_raise. by rewrite generate_run, Hr. }
  rewrite Hs. split_and!; [done| |done]. by apply (fs_read_error _ _ _ Hr).
Qed.

Lemma unreadable_readme_stops_witness :
  script project tools_pass (mkWorld fs_no_readme [])
    = (Raise FileNotFoundError, mkWorld fs_no_readme []) ∧
  is_OSError FileNotFoundError = true ∧
  exit_status (script project tools_pass (mkWorld fs_no_readme [])).1 = 1%Z.
Proof.
  apply (unreadable_readme_stops project tools_pass (mkWorld fs_no_readme [])).
  vm_compute; reflexivity.
Defined.


(** X5. A run that reads the README and can write the output does two
    things in this order: it writes the module, then it spawns one
    process, the shell on the command line of the script; the tools find
    the module in place and every other file as it was. *)
Theorem script_writes_then_spawns
    (BASE : Path) (sh : string → FS → Z * FS) (w : World) (src : string) :
  fs_read (readme BASE) (fs w) = Ok src →
  writable (output BASE) (fs w) = true →
  ∃ f1 status,
    files f1 !! output BASE = Some (generated src) ∧
    (∀ p, p ≠ output BASE → files f1 !! p = files (fs w) !! p) ∧
    sh (command BASE) f1 = (status, fs (script BASE sh w).2) ∧
    trace (script BASE sh w).2 =
      trace w ++ [Wrote (output BASE) (generated src);
                  Spawned (command BASE) status] ∧
    spawned (trace (script BASE sh w).2) = spawned (trace w) ++ [command BASE].
Proof.
  intros Hr Hw. rewrite (script_ok BASE sh w src Hr Hw). simpl.
  set (f1 := mkFS (dirs (fs w)) (<[output BASE := generated src]> (files (fs w)))
                  (locked (fs w))).
  exists f1, (sh (command BASE) f1).1. split_and!.
  - simpl. apply lookup_insert_eq.
  - intros p Hp. simpl. by rewrite lookup_insert_ne.
  - by destruct (sh _ _).
  - done.
  - unfold spawned. by rewrite omap_app.
Qed.

Lemma script_writes_then_spawns_witness :
  ∃ f1 status,
    files f1 !! output project = Some (generated hour_readme) ∧
    (∀ p, p ≠ output project → files f1 !! p = files fs_ready !! p) ∧
    tools_fail (command project) f1
      = (status, fs (script project tools_fail (mkWorld fs_ready [])).2) ∧
    trace (script project tools_fail (mkWorld fs_ready [])).2 =
      [Wrote (output project) (generated hour_readme);
       Spawned (command project) status] ∧
    spawned (trace (script project tools_fail (mkWorld fs_ready [])).2)
      = [command project].
Proof.
  apply (script_writes_then_spawns project tools_fail (mkWorld fs_ready []) hour_readme);
    vm_compute; reflexivity.
Defined.

(** ** Overwriting *)

(** The steps up to the shell do not see what the output file held. *)
Lemma generate_stale (BASE : Path) (f : FS) (t : list event) (old src : string) :
  fs_read (readme BASE) f = Ok src →
  writable (output BASE) f = true →
  generate BASE (mkWorld (mkFS (dirs f) (<[output BASE := old]> (files f)) (locked f)) t)
    = generate BASE (mkWorld f t).
Proof.
  intros Hr Hw.
  assert (Hr' : fs_read (readme BASE)
                  (mkFS (dirs f) (<[output BASE := old]> (files f)) (locked f)) = Ok src).
  { revert Hr. unfold fs_read. simpl.
    rewrite lookup_insert_ne; [done|]. apply output_not_readme. }
  rewrite !generate_run. simpl. rewrite Hr, Hr'. simpl.
  rewrite (fs_write_writable _ _ f Hw).
  rewrite (fs_write_writable _ _ (mkFS _ _ _) Hw). simpl.
  by rewrite insert_insert_eq.
Qed.

(** X6. The write replaces the file: a run does not depend on what the
    output file held before. From two worlds that differ in the old text
    of [src/Examples.elm] alone, the script gives the same result, the
    same files and the same trace. *)
Theorem stale_output_ignored
    (BASE : Path) (sh : string → FS → Z * FS) (f : FS) (t : list event)
    (old src : string) :
  fs_read (readme BASE) f = Ok src →
  writable (output BASE) f = true →
  script BASE sh
    (mkWorld (mkFS (dirs f) (<[output BASE := old]> (files f)) (locked f)) t)
  = script BASE sh (mkWorld f t).
Proof.
  intros Hr Hw. rewrite !script_run.
  by rewrite (generate_stale BASE f t old src Hr Hw).
Qed.

Lemma stale_output_ignored_witness :
  script project tools_pass
    (mkWorld (mkFS (dirs fs_ready) (<[output project := "stale"]> (files fs_ready))
                   (locked fs_ready)) [])
  = script project tools_pass (mkWorld fs_ready []).
Proof.
  apply (stale_output_ignored project tools_pass fs_ready [] "stale" hour_readme);
    vm_compute; reflexivity.
Defined.

(** X7. With tools that leave the files alone, a second run changes no
    file: after the first run the output holds the module of the README,
    the README holds its text, and the files after the second run are the
    files after the first. *)
Theorem second_run_changes_nothing
    (BASE : Path) (status : Z) (w : World) (src : string) :
  fs_read (readme BASE) (fs w) = Ok src →
  writable (output BASE) (fs w) = true →
  files (fs (script BASE (λ _ f, (status, f)) w).2) !! output BASE
    = Some (generated src) ∧
  fs_read (readme BASE) (fs (script BASE (λ _ f, (status, f)) w).2) = Ok src ∧
  fs (script BASE (λ _ f, (status, f))
        (script BASE (λ _ f, (status, f)) w).2).2
    = fs (script BASE (λ _ f, (status, f)) w).2.
Proof.
  intros Hr Hw. set (sh := λ (_ : string) (f : FS), (status, f)).
  rewrite (script_ok BASE sh w src Hr Hw). simpl.
  set (f1 := mkFS (dirs (fs w)) (<[output BASE := generated src]> (files (fs w)))
                  (locked (fs w))).
  assert (Hr1 : fs_read (readme BASE) f1 = Ok src).
  { revert Hr. unfold fs_read, f1. simpl.
    rewrite lookup_insert_ne; [done|]. apply output_not_readme. }
  split_and!; [apply lookup_insert_eq|done|].
  rewrite (script_ok BASE sh (mkWorld f1 _) src Hr1 Hw). simpl.
  unfold f1. simpl. by rewrite insert_insert_eq.
Qed.

Lemma second_run_changes_nothing_witness :
  files (fs (script project (λ _ f, (0%Z, f)) (mkWorld fs_stale [])).2)
    !! output project = Some (generated hour_readme) ∧
  fs_read (readme project)
    (fs (script project (λ _ f, (0%Z, f)) (mkWorld fs_stale [])).2)
    = Ok hour_readme ∧
  fs (script project (λ _ f, (0%Z, f))
        (script project (λ _ f, (0%Z, f)) (mkWorld fs_stale [])).2).2
    = fs (script project (λ _ f, (0%Z, f)) (mkWorld fs_stale [])).2.
Proof.
  apply (second_run_changes_nothing project 0%Z (mkWorld fs_stale []) hour_readme);
    vm_compute; reflexivity.
Defined.

(** ** The template *)

Lemma append_cancel_r (s t u : string) : s +:+ u = t +:+ u → s = t.
Proof.
  intros H.
  assert (Hlen : String.length s = String.length t).
  { apply (f_equal String.length) in H. rewrite !append_length in H. lia. }
  revert t H Hlen; induction s as [|c s IH]; intros [|c' t]; simpl; try done.
  intros [= -> H] [= Hlen]. f_equal. by apply IH.
Qed.

(** X8. The template loses nothing of the segment: two segments give the
    same module text only when they are the same segment, so two README
    texts give the same module exactly when their examples segments are
    equal. *)
Theorem generated_eq_iff (src1 src2 : string) :
  generated src1 = generated src2 ↔ examples src1 = examples src2.
Proof.
  split; [|by unfold generated; intros ->].
  unfold generated, elm_src. intros H.
  apply (inj (String.app _)) in H. by apply append_cancel_r in H.
Qed.
